(** * Payload handler base: the guarded replacement of a handler's source list

    Shallow embedding of [pyanaconda/modules/payload/base/handler_base.py]
    (class [PayloadHandlerBase]) and the properties of its source-list
    protocol.

    Python objects are mutable and are passed by reference, so the model keeps
    an explicit store: list objects and source objects live in a heap and are
    named by their identity.  Methods are computations in a monad that threads
    the world and may raise; a raised exception keeps the world reached so far,
    as in Python (nothing is rolled back). *)

From Stdlib Require Import List Bool Arith Lia String Relations.
From ExtLib Require Import Structures.Monad Structures.MonadState Structures.MonadExc.
From ExtLib Require Import Data.Monads.StateMonad Data.Monads.EitherMonad.
Import ListNotations.
Import MonadNotation.
Local Open Scope monad_scope.

Set Implicit Arguments.

(** Identity of a Python object (a list or a source). *)
Definition ref := nat.

(** Pointwise update of a store. *)
Definition upd {A : Type} (f : ref -> A) (r : ref) (a : A) : ref -> A :=
  fun r' => if Nat.eq_dec r' r then a else f r'.

(** The abstract members of [PayloadHandlerBase]: every concrete handler has
    to provide them.  [supported_source_types] is documented as returning a
    list of [SourceType] values; [publish_handler] returns the DBus path. *)
Class PayloadHandlerBase (SourceType : Type) : Type := {
  supported_source_types : list SourceType;
  publish_handler : string
}.

(** Values of an enumeration are compared for equality ([==], [in]). *)
Class Enum (T : Type) : Type :=
  enum_eq_dec : forall a b : T, {a = b} + {a <> b}.

(** The exceptions of [pyanaconda.modules.common.errors.payload] that
    [set_sources] raises.  The message of [IncompatibleSourceError] is
    formatted from the offending source type, which the constructor carries. *)
Inductive PayloadError (SourceType : Type) : Type :=
| IncompatibleSourceError (offending : SourceType)
| SourceSetupError.

Arguments SourceSetupError {SourceType}.

Section Handler.

(** [SourceType] is the enumeration of [payload.base.constants]; membership
    ([in] / [not in]) compares its values for equality. *)
Context {SourceType : Type} {SourceType_enum : Enum SourceType}.
Context {handler : PayloadHandlerBase SourceType}.

(** State that belongs to the subscribers of the signal. *)
Context {Observers : Type}.

(** Modelled from the spec: the source objects ([PayloadSourceBase] is not
    part of this file).  A source carries a [type] discriminator and answers
    the side-effect-free boolean query [is_ready()], true once external
    machinery has set the source up. *)
Record PayloadSource : Type := mkSource {
  type : SourceType;
  ready : bool
}.

(** The object store: list objects and source objects by identity.
    [next_list] is the identity the next allocated list gets. *)
Record Heap : Type := mkHeap {
  lists : ref -> list ref;
  next_list : ref;
  objects : ref -> PayloadSource
}.

(** The instance attribute of the handler that [__init__] creates besides
    the signal: [self._sources] holds a reference to a list object. *)
Record Fields : Type := mkFields {
  _sources : ref
}.

(** Modelled from the spec: the [Signal] of [pyanaconda.core.signal] (not
    part of this file), a notification channel with a list of registered
    observers, invoked synchronously and without payload.  An observer may
    read the heap and the handler, updates only the subscribers' state and
    returns normally (observers are quick and do not re-enter the handler).
    [emissions] counts how often the signal fired. *)
Definition callback : Type := Heap -> Fields -> Observers -> Observers.

Record Signal : Type := mkSignal {
  _callbacks : list callback;
  emissions : nat
}.

Record World : Type := mkWorld {
  heap : Heap;
  self : Fields;
  sources_changed : Signal;
  observers : Observers;
  debug_log : list ref
}.

(** Computations: state passing over [World], with exceptions that keep the
    state. *)
Definition M : Type -> Type := eitherT (PayloadError SourceType) (state World).

Definition run {A : Type} (c : M A) (w : World)
  : (PayloadError SourceType + A) * World :=
  runState (unEitherT c) w.

Definition outcome {A : Type} (c : M A) (w : World) : PayloadError SourceType + A :=
  fst (run c w).

Definition after {A : Type} (c : M A) (w : World) : World :=
  snd (run c w).

(** ** Primitive reads and writes *)

(** The elements of the list object [l], in order. *)
Definition elements (l : ref) : M (list ref) :=
  w <- get ;; ret (lists (heap w) l).

(** [source.type] *)
Definition get_type (source : ref) : M SourceType :=
  w <- get ;; ret (type (objects (heap w) source)).

(** [source.is_ready()] *)
Definition is_ready (source : ref) : M bool :=
  w <- get ;; ret (ready (objects (heap w) source)).

(** [x in l] on a Python list. *)
Definition contains (x : SourceType) (l : list SourceType) : bool :=
  if in_dec enum_eq_dec x l then true else false.

Definition set_heap (h : Heap) (w : World) : World :=
  mkWorld h (self w) (sources_changed w) (observers w) (debug_log w).

Definition set_self (f : Fields) (w : World) : World :=
  mkWorld (heap w) f (sources_changed w) (observers w) (debug_log w).

Definition set_signal (s : Signal) (w : World) : World :=
  mkWorld (heap w) (self w) s (observers w) (debug_log w).

Definition set_observers (o : Observers) (w : World) : World :=
  mkWorld (heap w) (self w) (sources_changed w) o (debug_log w).

Definition set_debug_log (l : list ref) (w : World) : World :=
  mkWorld (heap w) (self w) (sources_changed w) (observers w) l.

(** A list display [[x1, ..., xn]]: a new list object. *)
Definition new_list (xs : list ref) : M ref :=
  w <- get ;;
  let h := heap w in
  let l := next_list h in
  put (set_heap (mkHeap (upd (lists h) l xs) (S l) (objects h)) w) ;;
  ret l.

(** [l.append(x)] on the list object [l]. *)
Definition list_append (l : ref) (x : ref) : M unit :=
  w <- get ;;
  let h := heap w in
  put (set_heap (mkHeap (upd (lists h) l (lists h l ++ [x])) (next_list h) (objects h)) w).

(** [log.debug(...)]: the record keeps the list that was logged. *)
Definition log_debug (l : ref) : M unit :=
  w <- get ;; put (set_debug_log (debug_log w ++ [l]) w).

(** [Signal.emit()]: every registered observer is called, in order, on the
    world as it is at that moment. *)
Definition notify (h : Heap) (f : Fields) (cbs : list callback) (o : Observers)
  : Observers :=
  fold_left (fun acc cb => cb h f acc) cbs o.

Definition emit : M unit :=
  w <- get ;;
  let s := sources_changed w in
  put (set_signal (mkSignal (_callbacks s) (S (emissions s)))
        (set_observers (notify (heap w) (self w) (_callbacks s) (observers w)) w)).

(** ** The methods of [PayloadHandlerBase] *)

(** [__init__]: [self._sources = []] and [self.sources_changed = Signal()],
    after the initialisation of the base class, which does not touch these
    attributes. *)
Definition __init__ : M unit :=
  l <- new_list [] ;;
  w <- get ;;
  put (set_signal (mkSignal [] 0) (set_self (mkFields l) w)).

(** The property [sources]: [return self._sources]. *)
Definition sources : M ref :=
  w <- get ;; ret (_sources (self w)).

(** The loop
    [for source in sources: if source.type not in self.supported_source_types: raise ...]. *)
Fixpoint check_types (xs : list ref) : M unit :=
  match xs with
  | [] => ret tt
  | source :: rest =>
      t <- get_type source ;;
      if negb (contains t supported_source_types)
      then raise (IncompatibleSourceError t)
      else check_types rest
  end.

(** [any(source.is_ready() for source in xs)]: stops at the first ready one. *)
Fixpoint any_is_ready (xs : list ref) : M bool :=
  match xs with
  | [] => ret false
  | source :: rest =>
      b <- is_ready source ;;
      if b then ret true else any_is_ready rest
  end.

Definition set_sources (new_sources : ref) : M unit :=
  xs <- elements new_sources ;;
  check_types xs ;;
  cur <- sources ;;
  ys <- elements cur ;;
  initialized <- any_is_ready ys ;;
  if initialized
  then raise SourceSetupError
  else
    (w <- get ;; put (set_self (mkFields new_sources) w)) ;;
    log_debug new_sources ;;
    emit.

(** [has_source]: [return bool(self.sources)]; a list is true when it is
    not empty. *)
Definition has_source : M bool :=
  l <- sources ;;
  xs <- elements l ;;
  ret (match xs with [] => false | _ :: _ => true end).

(** ** Reading a world *)

(** The sources the handler holds: the elements of the list object that
    [self._sources] refers to. *)
Definition held (w : World) : list ref :=
  lists (heap w) (_sources (self w)).

Definition source_type (w : World) (source : ref) : SourceType :=
  type (objects (heap w) source).

Definition source_ready (w : World) (source : ref) : bool :=
  ready (objects (heap w) source).

(** The source's type is one the handler accepts. *)
Definition supported (w : World) (source : ref) : Prop :=
  In (source_type w source) supported_source_types.

(** The type that the loop of [set_sources] reports: the type of the first
    element, in list order, that the handler does not accept. *)
Definition first_unsupported (w : World) (xs : list ref) : option SourceType :=
  find (fun t => negb (contains t supported_source_types)) (map (source_type w) xs).

(** The world that a successful [set_sources new_sources] leaves: the
    attribute is rebound, the call is logged, then the signal fires. *)
Definition rebound (new_sources : ref) (w : World) : World :=
  set_debug_log (debug_log w ++ [new_sources]) (set_self (mkFields new_sources) w).

Definition committed (new_sources : ref) (w : World) : World :=
  let w' := rebound new_sources w in
  let s := sources_changed w' in
  set_signal (mkSignal (_callbacks s) (S (emissions s)))
    (set_observers (notify (heap w') (self w') (_callbacks s) (observers w')) w').

(** ** The environment of a handler *)

(** [l[:] = xs]: any in-place change of the list object [l]. *)
Definition list_assign (l : ref) (xs : list ref) : M unit :=
  w <- get ;;
  let h := heap w in
  put (set_heap (mkHeap (upd (lists h) l xs) (next_list h) (objects h)) w).

(** External machinery sets a source up or tears it down: its readiness
    changes, its type does not. *)
Definition set_ready (source : ref) (b : bool) : M unit :=
  w <- get ;;
  let h := heap w in
  put (set_heap
         (mkHeap (lists h) (next_list h)
                 (upd (objects h) source (mkSource (type (objects h source)) b))) w).

(** [Signal.connect(cb)]: a new subscriber. *)
Definition connect (cb : callback) : M unit :=
  w <- get ;;
  let s := sources_changed w in
  put (set_signal (mkSignal (_callbacks s ++ [cb]) (emissions s)) w).

(** One step in the life of a handler: a call of one of its operations, or
    a move of its environment.  A caller can only pass a list object that
    exists; apart from that the environment is free, and it may in
    particular change in place the list object the handler holds, which
    [sources] hands out and which [set_sources] took from its caller. *)
Inductive step : World -> World -> Prop :=
| step_set_sources (l : ref) (w : World) :
    l < next_list (heap w) -> step w (after (set_sources l) w)
| step_sources (w : World) : step w (after sources w)
| step_has_source (w : World) : step w (after has_source w)
| step_connect (cb : callback) (w : World) : step w (after (connect cb) w)
| step_set_ready (source : ref) (b : bool) (w : World) :
    step w (after (set_ready source b) w)
| step_new_list (xs : list ref) (w : World) : step w (after (new_list xs) w)
| step_list_append (l : ref) (x : ref) (w : World) :
    step w (after (list_append l x) w)
| step_list_assign (l : ref) (xs : list ref) (w : World) :
    step w (after (list_assign l xs) w).

(** The worlds of a handler constructed by [__init__] in the world [w0]:
    any number of steps after the construction. *)
Definition reachable_from (w0 w : World) : Prop :=
  clos_refl_trans_1n World step (after __init__ w0) w.

(** A step that leaves the elements of the list object the handler holds
    before the step as they are: the list may be replaced by [set_sources],
    but it is not changed in place. *)
Definition quiet_step (w w' : World) : Prop :=
  step w w' /\ lists (heap w') (_sources (self w)) = held w.

(** The worlds reached from the construction by such steps only. *)
Definition reachable_quietly (w0 w : World) : Prop :=
  clos_refl_trans_1n World quiet_step (after __init__ w0) w.

(** What the message of [SourceSetupError] asks the caller to do first:
    [for source in handler.sources: source.tear_down()], after which the
    source is not ready any more. *)
Fixpoint tear_down (xs : list ref) : M unit :=
  match xs with
  | [] => ret tt
  | source :: rest => set_ready source false ;; tear_down rest
  end.

Definition tear_down_sources : M unit :=
  l <- sources ;;
  xs <- elements l ;;
  tear_down xs.

End Handler.

Arguments PayloadSource SourceType : clear implicits.
Arguments Heap SourceType : clear implicits.
Arguments callback SourceType Observers : clear implicits.
Arguments Signal SourceType Observers : clear implicits.
Arguments World SourceType Observers : clear implicits.
Arguments M SourceType Observers A : clear implicits.

(** ** A concrete handler

    The handler of the scenarios: two kinds of source, of which the handler
    accepts only [A].  Its subscribers keep, for every notification they get,
    what the handler's [sources] showed at that moment. *)
Module Scenario.

Inductive SourceType : Type := A | B.

#[global] Instance SourceType_enum : Enum SourceType.
Proof. intros a b. decide equality. Defined.

#[global] Instance handler : PayloadHandlerBase SourceType := {|
  supported_source_types := [A];
  publish_handler := "/scenario/handler"
|}.

Definition Observers : Type := list (list ref).

Definition probe : callback SourceType Observers :=
  fun h f seen => lists h (_sources f) :: seen.

(** Source objects: 0 and 4 are [A] sources not set up, 1 is an [A] set up,
    2 a [B] not set up, every other one a [B] set up. *)
Definition source_objects (source : ref) : PayloadSource SourceType :=
  match source with
  | 0 => mkSource A false
  | 1 => mkSource A true
  | 2 => mkSource B false
  | 4 => mkSource A false
  | _ => mkSource B true
  end.

(** List objects: 0 is empty, 1 holds source 0, 2 holds source 1, 3 holds
    source 2, 4 holds sources 0 and 4, 5 holds sources 1 and 0; every other
    list is empty. *)
Definition list_objects (l : ref) : list ref :=
  match l with
  | 1 => [0]
  | 2 => [1]
  | 3 => [2]
  | 4 => [0; 4]
  | 5 => [1; 0]
  | _ => []
  end.

(** A handler that holds the list object [l], with one subscriber. *)
Definition holding (l : ref) : World SourceType Observers :=
  mkWorld (mkHeap list_objects 6 source_objects) (mkFields l) (mkSignal [probe] 0) [] [].

End Scenario.

(** ** A handler with three kinds of source

    Three kinds of source, of which the handler accepts only [A]; the
    subscriber counts the notifications it gets. *)
Module Mixed.

Inductive SourceType : Type := A | B | C.

#[global] Instance SourceType_enum : Enum SourceType.
Proof. intros a b. decide equality. Defined.

#[global] Instance handler : PayloadHandlerBase SourceType := {|
  supported_source_types := [A];
  publish_handler := "/mixed/handler"
|}.

Definition Observers : Type := nat.

Definition count : callback SourceType Observers :=
  fun _ _ n => S n.

(** Source objects: 1 is a [B] and 2 a [C], both not set up, 3 is an [A] set
    up, every other one an [A] not set up. *)
Definition source_objects (source : ref) : PayloadSource SourceType :=
  match source with
  | 1 => mkSource B false
  | 2 => mkSource C false
  | 3 => mkSource A true
  | _ => mkSource A false
  end.

(** List objects: 1 holds sources 0, 2 and 1, 2 holds sources 3 and 0, 3 holds
    source 0, 4 holds source 3, 5 holds source 5; every other list is
    empty. *)
Definition list_objects (l : ref) : list ref :=
  match l with
  | 1 => [0; 2; 1]
  | 2 => [3; 0]
  | 3 => [0]
  | 4 => [3]
  | 5 => [5]
  | _ => []
  end.

(** A handler that holds the list object [l], with one subscriber. *)
Definition holding (l : ref) : World SourceType Observers :=
  mkWorld (mkHeap list_objects 6 source_objects) (mkFields l) (mkSignal [count] 0) 0 [].

End Mixed.

(** * Properties *)

Unset Implicit Arguments.

Section Properties.

Context {SourceType : Type} {SourceType_enum : Enum SourceType}.
Context {handler : PayloadHandlerBase SourceType}.
Context {Observers : Type}.

Implicit Types (w : World SourceType Observers) (l source : ref) (xs : list ref).

(** ** Running computations *)

Lemma run_bind (A B : Type) (c : M SourceType Observers A)
      (k : A -> M SourceType Observers B) w :
  run (bind c k) w =
  match run c w with
  | (inl e, w') => (inl e, w')
  | (inr a, w') => run (k a) w'
  end.
Proof.
  unfold run; cbn. destruct (runState (unEitherT c) w) as [[e|a] w']; reflexivity.
Qed.

(** ** What the two checks compute *)

Lemma contains_In (t : SourceType) (ts : list SourceType) :
  contains t ts = true <-> In t ts.
Proof.
  unfold contains. destruct (in_dec enum_eq_dec t ts); split; intros; congruence || assumption.
Qed.

Lemma run_check_types w xs :
  run (check_types xs) w =
  (match first_unsupported w xs with
   | Some t => inl (IncompatibleSourceError t)
   | None => inr tt
   end, w).
Proof.
  induction xs as [|source rest IH]; [reflexivity|].
  unfold first_unsupported in *. cbn [map find].
  fold (source_type w source).
  destruct (negb (contains (source_type w source) supported_source_types)) eqn:E.
  - unfold run; cbn. unfold source_type in E. rewrite E. reflexivity.
  - rewrite <- IH. unfold run; cbn. unfold source_type in E. rewrite E. reflexivity.
Qed.

Lemma run_any_is_ready w xs :
  run (any_is_ready xs) w = (inr (existsb (source_ready w) xs), w).
Proof.
  induction xs as [|source rest IH]; [reflexivity|].
  cbn [existsb]. destruct (source_ready w source) eqn:E.
  - unfold run; cbn. unfold source_ready in E. rewrite E. reflexivity.
  - rewrite orb_false_l, <- IH. unfold run; cbn. unfold source_ready in E. rewrite E.
    reflexivity.
Qed.

(** [set_sources] in closed form. *)
Lemma run_set_sources w l :
  run (set_sources l) w =
  match first_unsupported w (lists (heap w) l) with
  | Some t => (inl (IncompatibleSourceError t), w)
  | None =>
      if existsb (source_ready w) (held w)
      then (inl SourceSetupError, w)
      else (inr tt, committed l w)
  end.
Proof.
  unfold set_sources.
  rewrite run_bind. change (run (elements l) w) with (@inr (PayloadError SourceType) _ (lists (heap w) l), w).
  cbv iota. rewrite run_bind, run_check_types.
  destruct (first_unsupported w (lists (heap w) l)) as [t|]; [reflexivity|].
  rewrite run_bind. change (run sources w) with (@inr (PayloadError SourceType) _ (_sources (self w)), w).
  cbv iota. rewrite run_bind.
  change (run (elements (_sources (self w))) w) with (@inr (PayloadError SourceType) _ (held w), w).
  cbv iota. rewrite run_bind, run_any_is_ready.
  destruct (existsb (source_ready w) (held w)); reflexivity.
Qed.

Lemma outcome_set_sources w l :
  outcome (set_sources l) w =
  match first_unsupported w (lists (heap w) l) with
  | Some t => inl (IncompatibleSourceError t)
  | None => if existsb (source_ready w) (held w) then inl SourceSetupError else inr tt
  end.
Proof.
  unfold outcome. rewrite run_set_sources.
  destruct (first_unsupported w (lists (heap w) l)); [reflexivity|].
  destruct (existsb (source_ready w) (held w)); reflexivity.
Qed.

Lemma after_set_sources w l :
  after (set_sources l) w =
  match outcome (set_sources l) w with
  | inl _ => w
  | inr _ => committed l w
  end.
Proof.
  rewrite outcome_set_sources. unfold after. rewrite run_set_sources.
  destruct (first_unsupported w (lists (heap w) l)); [reflexivity|].
  destruct (existsb (source_ready w) (held w)); reflexivity.
Qed.

(** ** The checks, as properties of lists *)

Lemma first_unsupported_None w xs :
  first_unsupported w xs = None <-> Forall (supported w) xs.
Proof.
  unfold first_unsupported, supported.
  induction xs as [|source rest IH]; cbn [map find].
  - split; auto.
  - destruct (contains (source_type w source) supported_source_types) eqn:E; cbn [negb].
    + apply contains_In in E. rewrite IH. split.
      * intros H. constructor; assumption.
      * intros H. inversion H; assumption.
    + split; [discriminate|]. intros H. inversion H as [|? ? Hin _]; subst.
      apply contains_In in Hin. congruence.
Qed.

Lemma first_unsupported_Some w xs (t : SourceType) :
  first_unsupported w xs = Some t ->
  ~ In t supported_source_types /\ exists source, In source xs /\ source_type w source = t.
Proof.
  unfold first_unsupported. intros H. apply find_some in H. destruct H as [Hin Hneg].
  split.
  - intros Hs. apply contains_In in Hs. rewrite Hs in Hneg. discriminate.
  - apply in_map_iff in Hin. destruct Hin as [source [Ht Hin]]. eauto.
Qed.

Lemma first_unsupported_Exists w xs :
  Exists (fun source => ~ supported w source) xs ->
  exists t, first_unsupported w xs = Some t.
Proof.
  intros H. destruct (first_unsupported w xs) as [t|] eqn:E; [eauto|].
  apply first_unsupported_None in E. rewrite Forall_forall in E.
  apply Exists_exists in H. destruct H as [source [Hin Hnot]].
  elim Hnot. exact (E _ Hin).
Qed.

Lemma some_ready_true w xs :
  existsb (source_ready w) xs = true <->
  Exists (fun source => source_ready w source = true) xs.
Proof.
  rewrite existsb_exists, Exists_exists. reflexivity.
Qed.

Lemma some_ready_false w xs :
  existsb (source_ready w) xs = false <->
  Forall (fun source => source_ready w source = false) xs.
Proof.
  rewrite Forall_forall. split.
  - intros H source Hin. destruct (source_ready w source) eqn:E; [|reflexivity].
    assert (existsb (source_ready w) xs = true) by (apply existsb_exists; eauto).
    congruence.
  - intros H. destruct (existsb (source_ready w) xs) eqn:E; [|reflexivity].
    apply existsb_exists in E. destruct E as [source [Hin Hr]].
    rewrite (H _ Hin) in Hr. discriminate.
Qed.

(** A failed call leaves the world as it was. *)
Lemma failed_set_sources_same_world w l (e : PayloadError SourceType) :
  outcome (set_sources l) w = inl e -> after (set_sources l) w = w.
Proof.
  intros H. rewrite after_set_sources, H. reflexivity.
Qed.

(** ** The source-list protocol *)

(** C1, as amended.  While the handler holds a source that is ready, every
    call of [set_sources] fails and leaves the handler as it was; the error
    is [SourceSetupError] when all the types of the new sequence are
    supported, and [IncompatibleSourceError] when one is not, as the types
    are checked first. *)
Theorem set_sources_refused_while_ready w l :
  Exists (fun source => source_ready w source = true) (held w) ->
  (exists e, outcome (set_sources l) w = inl e) /\
  after (set_sources l) w = w /\
  (Forall (supported w) (lists (heap w) l) ->
   outcome (set_sources l) w = inl SourceSetupError) /\
  (~ Forall (supported w) (lists (heap w) l) ->
   exists t, outcome (set_sources l) w = inl (IncompatibleSourceError t)).
Proof.
  intros Hready. apply some_ready_true in Hready.
  assert (Hfail : exists e, outcome (set_sources l) w = inl e).
  { rewrite outcome_set_sources, Hready.
    destruct (first_unsupported w (lists (heap w) l)); eauto. }
  split; [exact Hfail|]. split; [|split].
  - destruct Hfail as [e He]. exact (failed_set_sources_same_world _ _ _ He).
  - intros Hall. apply first_unsupported_None in Hall.
    rewrite outcome_set_sources, Hall, Hready. reflexivity.
  - intros Hnot. rewrite outcome_set_sources.
    destruct (first_unsupported w (lists (heap w) l)) as [t|] eqn:E; [eauto|].
    apply first_unsupported_None in E. contradiction.
Qed.

(** C2, as amended.  The [sources] query returns the handler's own list
    object, not a copy, and changes nothing; whatever a caller then does in
    place to the returned list is done to the handler's source list. *)
Theorem sources_returns_internal_list w :
  outcome sources w = inr (_sources (self w)) /\
  after sources w = w /\
  (forall x, held (after (r <- sources ;; list_append r x) w) = held w ++ [x]) /\
  (forall xs, held (after (r <- sources ;; list_assign r xs) w) = xs).
Proof.
  split; [reflexivity|]. split; [reflexivity|]. split.
  - intros x. unfold held, after, run; cbn. unfold upd.
    destruct (Nat.eq_dec (_sources (self w)) (_sources (self w))); congruence.
  - intros xs. unfold held, after, run; cbn. unfold upd.
    destruct (Nat.eq_dec (_sources (self w)) (_sources (self w))); congruence.
Qed.

(** C3.  With no ready source held and a new sequence whose types are all
    supported, [set_sources] returns normally, [sources] then gives the new
    list with its elements in the same order, and the signal has fired
    exactly once: one more emission, in which each subscriber was called
    once. *)
Theorem set_sources_success w l :
  Forall (fun source => source_ready w source = false) (held w) ->
  Forall (supported w) (lists (heap w) l) ->
  outcome (set_sources l) w = inr tt /\
  outcome sources (after (set_sources l) w) = inr l /\
  held (after (set_sources l) w) = lists (heap w) l /\
  emissions (sources_changed (after (set_sources l) w))
    = S (emissions (sources_changed w)) /\
  observers (after (set_sources l) w)
    = notify (heap w) (mkFields l) (_callbacks (sources_changed w)) (observers w).
Proof.
  intros Hidle Hall.
  apply some_ready_false in Hidle. apply first_unsupported_None in Hall.
  assert (Hok : outcome (set_sources l) w = inr tt).
  { rewrite outcome_set_sources, Hall, Hidle. reflexivity. }
  rewrite after_set_sources, Hok. repeat split; reflexivity || exact Hok.
Qed.

(** C4.  The two checks run in this order: first the types of the new
    sequence, then the readiness of the held sources.  When a held source is
    ready, the readiness check does refuse, with [SourceSetupError], every
    sequence that passes the type check; but a new sequence with an
    unsupported type is refused before that, with [IncompatibleSourceError],
    raised for the first offending element. *)
Theorem type_check_precedes_readiness_check w l :
  Exists (fun source => ~ supported w source) (lists (heap w) l) ->
  Exists (fun source => source_ready w source = true) (held w) ->
  (exists t,
      outcome (set_sources l) w = inl (IncompatibleSourceError t) /\
      outcome (set_sources l) w <> inl SourceSetupError /\
      first_unsupported w (lists (heap w) l) = Some t /\
      ~ In t supported_source_types) /\
  (forall l',
      Forall (supported w) (lists (heap w) l') ->
      outcome (set_sources l') w = inl SourceSetupError).
Proof.
  intros Hbad Hready. split.
  - apply first_unsupported_Exists in Hbad. destruct Hbad as [t Ht].
    exists t. rewrite outcome_set_sources, Ht. split; [reflexivity|].
    split; [discriminate|]. split; [reflexivity|].
    apply (first_unsupported_Some _ _ _ Ht).
  - intros l' Hall. apply first_unsupported_None in Hall. apply some_ready_true in Hready.
    rewrite outcome_set_sources, Hall, Hready. reflexivity.
Qed.

(** C5.  A new sequence with a source whose type is not supported makes
    [set_sources] fail with [IncompatibleSourceError], whatever the handler
    holds, and the handler keeps its list, with the same elements. *)
Theorem incompatible_source_rejected w l :
  Exists (fun source => ~ supported w source) (lists (heap w) l) ->
  (exists t, outcome (set_sources l) w = inl (IncompatibleSourceError t) /\
             ~ In t supported_source_types) /\
  outcome sources (after (set_sources l) w) = outcome sources w /\
  held (after (set_sources l) w) = held w.
Proof.
  intros Hbad. apply first_unsupported_Exists in Hbad. destruct Hbad as [t Ht].
  assert (He : outcome (set_sources l) w = inl (IncompatibleSourceError t)).
  { rewrite outcome_set_sources, Ht. reflexivity. }
  rewrite (failed_set_sources_same_world _ _ _ He). split; [|split; reflexivity].
  exists t. split; [exact He|]. apply (first_unsupported_Some _ _ _ Ht).
Qed.

(** C6.  Whenever [set_sources] fails, with either error, the world after
    the call is the world before it: [self._sources] refers to the same list
    object, that list has the same elements, the signal has not fired and no
    subscriber was called. *)
Theorem failed_set_sources_changes_nothing w l (e : PayloadError SourceType) :
  outcome (set_sources l) w = inl e ->
  after (set_sources l) w = w /\
  _sources (self (after (set_sources l) w)) = _sources (self w) /\
  held (after (set_sources l) w) = held w /\
  emissions (sources_changed (after (set_sources l) w)) = emissions (sources_changed w) /\
  observers (after (set_sources l) w) = observers w.
Proof.
  intros He. rewrite (failed_set_sources_same_world _ _ _ He). repeat split.
Qed.

(** ** The invariant of the held list *)

Lemma quiet_step_keeps_supported w w' :
  quiet_step w w' -> Forall (supported w) (held w) -> Forall (supported w') (held w').
Proof.
  intros [Hstep Hquiet] Hall.
  destruct Hstep as [l w _|w|w|cb w|source b w|xs w|l x w|l xs w].
  - clear Hquiet. rewrite after_set_sources, outcome_set_sources.
    destruct (first_unsupported w (lists (heap w) l)) eqn:E; [exact Hall|].
    destruct (existsb (source_ready w) (held w)); [exact Hall|].
    apply first_unsupported_None in E. exact E.
  - exact Hall.
  - exact Hall.
  - exact Hall.
  - change (held (after (set_ready source b) w)) with (held w).
    refine (Forall_impl _ _ Hall). intros s Hs.
    unfold supported, source_type in *; cbn. unfold upd.
    destruct (Nat.eq_dec s source) as [->|]; assumption.
  - change (held (after (new_list xs) w))
      with (lists (heap (after (new_list xs) w)) (_sources (self w))).
    rewrite Hquiet. exact Hall.
  - change (held (after (list_append l x) w))
      with (lists (heap (after (list_append l x) w)) (_sources (self w))).
    rewrite Hquiet. exact Hall.
  - change (held (after (list_assign l xs) w))
      with (lists (heap (after (list_assign l xs) w)) (_sources (self w))).
    rewrite Hquiet. exact Hall.
Qed.

(** C7, as amended.  A handler constructed by [__init__] holds no source, and
    in every world reached from there by operations of the handler and moves
    of its environment, none of which changes in place the list object the
    handler holds, every source the handler holds has a supported type. *)
Theorem held_sources_always_supported w0 w :
  reachable_quietly w0 w ->
  held (after __init__ w0) = [] /\ Forall (supported w) (held w).
Proof.
  intros Hreach.
  assert (Hempty : held (after __init__ w0) = []).
  { unfold held, after, run; cbn. unfold upd.
    destruct (Nat.eq_dec (next_list (heap w0)) (next_list (heap w0))); congruence. }
  split; [exact Hempty|].
  assert (Hinit : Forall (supported (after __init__ w0)) (held (after __init__ w0))).
  { rewrite Hempty. constructor. }
  unfold reachable_quietly in Hreach. clear Hempty. revert Hinit.
  induction Hreach as [|a b c Hstep _ IH]; [auto|].
  intros Ha. apply IH. exact (quiet_step_keeps_supported _ _ Hstep Ha).
Qed.

(** C8.  When [set_sources] succeeds, the signal is emitted in a world in
    which the replacement is already made: the world after the call is the
    result of [emit] in the world [rebound l w], in which nothing has been
    emitted yet and [sources] gives the new list and its elements; so each
    subscriber is called on the new list. *)
Theorem notification_after_commit w l :
  outcome (set_sources l) w = inr tt ->
  after (set_sources l) w = after emit (rebound l w) /\
  emissions (sources_changed (rebound l w)) = emissions (sources_changed w) /\
  observers (rebound l w) = observers w /\
  outcome sources (rebound l w) = inr l /\
  held (rebound l w) = lists (heap w) l /\
  observers (after (set_sources l) w)
    = notify (heap w) (mkFields l) (_callbacks (sources_changed w)) (observers w).
Proof.
  intros Hok. rewrite after_set_sources, Hok. repeat split.
Qed.

(** C9.  With no ready source held, [set_sources] with an empty list
    succeeds, whatever the supported types are, and [has_source] is then
    false; [has_source] never raises and is true exactly when the held list
    is not empty. *)
Theorem set_sources_empty w l :
  Forall (fun source => source_ready w source = false) (held w) ->
  lists (heap w) l = [] ->
  outcome (set_sources l) w = inr tt /\
  outcome has_source (after (set_sources l) w) = inr false /\
  (forall v : World SourceType Observers,
      exists b, outcome has_source v = inr b /\ after has_source v = v /\
                (b = true <-> held v <> [])).
Proof.
  intros Hidle Hempty. apply some_ready_false in Hidle.
  assert (Hok : outcome (set_sources l) w = inr tt).
  { rewrite outcome_set_sources, Hempty, Hidle. reflexivity. }
  split; [exact Hok|]. split.
  - rewrite after_set_sources, Hok. unfold outcome, run; cbn. rewrite Hempty. reflexivity.
  - intros v. exists (match held v with [] => false | _ :: _ => true end).
    split; [reflexivity|]. split; [reflexivity|].
    destruct (held v); split; congruence.
Qed.

Lemma set_ready_elsewhere w l source (b : bool) :
  ~ In source (held w) ->
  outcome (set_sources l) (after (set_ready source b) w) = outcome (set_sources l) w.
Proof.
  intros Hout. rewrite !outcome_set_sources.
  assert (Ht : first_unsupported (after (set_ready source b) w)
                 (lists (heap (after (set_ready source b) w)) l)
               = first_unsupported w (lists (heap w) l)).
  { unfold first_unsupported. f_equal. change (lists (heap (after (set_ready source b) w)) l)
      with (lists (heap w) l). apply map_ext. intros s.
    unfold source_type, after, run; cbn. unfold upd.
    destruct (Nat.eq_dec s source) as [->|]; reflexivity. }
  rewrite Ht. destruct (first_unsupported w (lists (heap w) l)); [reflexivity|].
  assert (Hr : existsb (source_ready (after (set_ready source b) w))
                 (held (after (set_ready source b) w))
               = existsb (source_ready w) (held w)).
  { change (held (after (set_ready source b) w)) with (held w).
    revert Hout. induction (held w) as [|s rest IH]; [reflexivity|].
    intros Hout. cbn [existsb]. rewrite IH by (intros Hin; apply Hout; right; exact Hin).
    f_equal. unfold source_ready, after, run; cbn. unfold upd.
    destruct (Nat.eq_dec s source) as [->|]; [|reflexivity].
    elim Hout. left. reflexivity. }
  rewrite Hr. reflexivity.
Qed.

(** C10.  The readiness of the new sources is not looked at: with no ready
    source held and a new sequence of supported types, [set_sources]
    succeeds although sources of the new sequence are ready, and the result
    of the call does not depend on the readiness of any source that the
    handler does not hold. *)
Theorem new_sources_may_be_ready w l :
  Forall (fun source => source_ready w source = false) (held w) ->
  Forall (supported w) (lists (heap w) l) ->
  Exists (fun source => source_ready w source = true) (lists (heap w) l) ->
  outcome (set_sources l) w = inr tt /\
  held (after (set_sources l) w) = lists (heap w) l /\
  (forall source (b : bool),
      ~ In source (held w) ->
      outcome (set_sources l) (after (set_ready source b) w) = inr tt).
Proof.
  intros Hidle Hall _.
  apply some_ready_false in Hidle. apply first_unsupported_None in Hall.
  assert (Hok : outcome (set_sources l) w = inr tt).
  { rewrite outcome_set_sources, Hall, Hidle. reflexivity. }
  split; [exact Hok|]. split.
  - rewrite after_set_sources, Hok. reflexivity.
  - intros source b Hout. rewrite set_ready_elsewhere by exact Hout. exact Hok.
Qed.

(** ** Further properties of the protocol *)

Lemma first_unsupported_app w xs source ys :
  Forall (supported w) xs -> ~ supported w source ->
  first_unsupported w (xs ++ source :: ys) = Some (source_type w source).
Proof.
  intros Hall Hnot. unfold first_unsupported.
  induction Hall as [|s rest Hs _ IH]; cbn [app map find].
  - destruct (contains (source_type w source) supported_source_types) eqn:E; [|reflexivity].
    apply contains_In in E. contradiction.
  - apply contains_In in Hs. rewrite Hs. exact IH.
Qed.

Lemma heap_after_set_sources w l : heap (after (set_sources l) w) = heap w.
Proof.
  rewrite after_set_sources. destruct (outcome (set_sources l) w); reflexivity.
Qed.

Lemma succeeded_set_sources_world w l :
  outcome (set_sources l) w = inr tt -> after (set_sources l) w = committed l w.
Proof.
  intros H. rewrite after_set_sources, H. reflexivity.
Qed.

(** [set_sources] returns normally exactly when every type of the new
    sequence is supported and no held source is ready. *)
Theorem set_sources_succeeds_iff w l :
  outcome (set_sources l) w = inr tt <->
  Forall (supported w) (lists (heap w) l) /\
  Forall (fun source => source_ready w source = false) (held w).
Proof.
  rewrite outcome_set_sources, <- first_unsupported_None, <- some_ready_false.
  destruct (first_unsupported w (lists (heap w) l)).
  - split; [discriminate | intros [H _]; discriminate H].
  - destruct (existsb (source_ready w) (held w)).
    + split; [discriminate | intros [_ H]; discriminate H].
    + split; auto.
Qed.

(** [SourceSetupError] is raised exactly when every type of the new sequence
    is supported and some held source is ready. *)
Theorem source_setup_error_iff w l :
  outcome (set_sources l) w = inl SourceSetupError <->
  Forall (supported w) (lists (heap w) l) /\
  Exists (fun source => source_ready w source = true) (held w).
Proof.
  rewrite outcome_set_sources, <- first_unsupported_None, <- some_ready_true.
  destruct (first_unsupported w (lists (heap w) l)).
  - split; [discriminate | intros [H _]; discriminate H].
  - destruct (existsb (source_ready w) (held w)).
    + split; auto.
    + split; [discriminate | intros [_ H]; discriminate H].
Qed.

(** The error names the type of the first element, in list order, whose type
    is not supported, whatever comes after it and whatever the handler
    holds. *)
Theorem first_offending_type_is_reported w l xs source ys :
  lists (heap w) l = xs ++ source :: ys ->
  Forall (supported w) xs ->
  ~ supported w source ->
  outcome (set_sources l) w = inl (IncompatibleSourceError (source_type w source)).
Proof.
  intros Hl Hall Hnot.
  rewrite outcome_set_sources, Hl, (first_unsupported_app w xs source ys Hall Hnot).
  reflexivity.
Qed.

(** [set_sources] never changes a list object or a source object, and never
    changes who is subscribed: in particular the list that was held keeps its
    elements when it is replaced. *)
Theorem set_sources_keeps_heap_and_subscribers w l :
  heap (after (set_sources l) w) = heap w /\
  _callbacks (sources_changed (after (set_sources l) w)) = _callbacks (sources_changed w) /\
  lists (heap (after (set_sources l) w)) (_sources (self w)) = held w.
Proof.
  rewrite after_set_sources. destruct (outcome (set_sources l) w); repeat split.
Qed.

(** [set_sources] keeps the caller's list object, not a copy of it: what the
    caller appends to that list afterwards is held by the handler, without a
    type check and without a notification. *)
Theorem argument_list_is_aliased w l x :
  outcome (set_sources l) w = inr tt ->
  held (after (list_append l x) (after (set_sources l) w)) = lists (heap w) l ++ [x] /\
  emissions (sources_changed (after (list_append l x) (after (set_sources l) w)))
    = emissions (sources_changed (after (set_sources l) w)) /\
  observers (after (list_append l x) (after (set_sources l) w))
    = observers (after (set_sources l) w).
Proof.
  intros Hok. rewrite (succeeded_set_sources_world w l Hok).
  split; [|split; reflexivity].
  unfold held, after, run; cbn. unfold upd.
  destruct (Nat.eq_dec l l); congruence.
Qed.

(** After a successful [set_sources], [has_source] tells whether the new
    sequence has an element. *)
Theorem has_source_after_set_sources w l :
  outcome (set_sources l) w = inr tt ->
  exists b, outcome has_source (after (set_sources l) w) = inr b /\
            (b = true <-> lists (heap w) l <> []).
Proof.
  intros Hok. rewrite (succeeded_set_sources_world w l Hok).
  exists (match lists (heap w) l with [] => false | _ :: _ => true end).
  split; [reflexivity|]. destruct (lists (heap w) l); split; congruence.
Qed.

(** A handler that has accepted a sequence with a ready source refuses every
    further [set_sources], the empty sequence included, and keeps that
    sequence. *)
Theorem ready_new_source_locks_handler w l l' :
  outcome (set_sources l) w = inr tt ->
  Exists (fun source => source_ready w source = true) (lists (heap w) l) ->
  (exists e, outcome (set_sources l') (after (set_sources l) w) = inl e) /\
  held (after (set_sources l') (after (set_sources l) w)) = lists (heap w) l.
Proof.
  intros Hok Hready. apply some_ready_true in Hready.
  rewrite (succeeded_set_sources_world w l Hok).
  assert (Hfail : exists e, outcome (set_sources l') (committed l w) = inl e).
  { rewrite outcome_set_sources.
    destruct (first_unsupported (committed l w) (lists (heap (committed l w)) l')); [eauto|].
    change (existsb (source_ready (committed l w)) (held (committed l w)))
      with (existsb (source_ready w) (lists (heap w) l)).
    rewrite Hready. eauto. }
  split; [exact Hfail|]. destruct Hfail as [e He].
  rewrite (failed_set_sources_same_world _ _ _ He). reflexivity.
Qed.

Lemma run_tear_down w xs :
  outcome (tear_down xs) w = inr tt /\
  self (after (tear_down xs) w) = self w /\
  lists (heap (after (tear_down xs) w)) = lists (heap w) /\
  (forall source, source_type (after (tear_down xs) w) source = source_type w source) /\
  (forall source,
      source_ready (after (tear_down xs) w) source = true ->
      source_ready w source = true /\ ~ In source xs).
Proof.
  revert w. induction xs as [|s rest IH]; intros w.
  - repeat split; auto.
  - destruct (IH (after (set_ready s false) w)) as (Hout & Hself & Hlists & Htype & Hready).
    assert (Hrun : run (tear_down (s :: rest)) w
                   = run (tear_down rest) (after (set_ready s false) w)).
    { cbn [tear_down]. rewrite run_bind. reflexivity. }
    unfold outcome, after in *. rewrite Hrun.
    split; [exact Hout|]. split; [exact Hself|]. split; [exact Hlists|]. split.
    + intros source. rewrite Htype. unfold source_type; cbn. unfold upd.
      destruct (Nat.eq_dec source s) as [->|]; reflexivity.
    + intros source Hr. destruct (Hready source Hr) as [Hr1 Hnin].
      unfold source_ready in Hr1; cbn in Hr1. unfold upd in Hr1.
      destruct (Nat.eq_dec source s) as [->|Hne]; [discriminate Hr1|].
      split; [exact Hr1|]. intros [Heq|Hin]; [congruence | contradiction].
Qed.

(** Once the held sources are torn down, as the message of [SourceSetupError]
    asks, the handler accepts every sequence whose types are all
    supported. *)
Theorem tear_down_unlocks w l :
  Forall (supported w) (lists (heap w) l) ->
  outcome (set_sources l) (after tear_down_sources w) = inr tt.
Proof.
  intros Hall.
  destruct (run_tear_down w (held w)) as (_ & Hself & Hlists & Htype & Hready).
  change (after tear_down_sources w) with (after (tear_down (held w)) w).
  rewrite outcome_set_sources.
  assert (Htypes : first_unsupported (after (tear_down (held w)) w)
                     (lists (heap (after (tear_down (held w)) w)) l) = None).
  { apply first_unsupported_None.
    rewrite Hlists. refine (Forall_impl _ _ Hall). intros source Hs.
    unfold supported in *. rewrite Htype. exact Hs. }
  assert (Hidle : existsb (source_ready (after (tear_down (held w)) w))
                    (held (after (tear_down (held w)) w)) = false).
  { apply some_ready_false.
    assert (Hheld : held (after (tear_down (held w)) w) = held w).
    { set (w' := after (tear_down (held w)) w) in *.
      change (held w') with (lists (heap w') (_sources (self w'))).
      rewrite Hself, Hlists. reflexivity. }
    rewrite Hheld. apply Forall_forall. intros source Hin.
    destruct (source_ready (after (tear_down (held w)) w) source) eqn:E; [|reflexivity].
    destruct (Hready source E) as [_ Hnin]. contradiction. }
  rewrite Htypes, Hidle. reflexivity.
Qed.

(** A handler that has just been constructed holds nothing, so it accepts
    exactly the sequences whose types are all supported: the first
    [set_sources] cannot raise [SourceSetupError]. *)
Theorem fresh_handler_accepts_compatible w0 l :
  (outcome (set_sources l) (after __init__ w0) = inr tt <->
   Forall (supported (after __init__ w0)) (lists (heap (after __init__ w0)) l)) /\
  outcome (set_sources l) (after __init__ w0) <> inl SourceSetupError.
Proof.
  assert (Hempty : held (after __init__ w0) = []).
  { unfold held, after, run; cbn. unfold upd.
    destruct (Nat.eq_dec (next_list (heap w0)) (next_list (heap w0))); congruence. }
  rewrite outcome_set_sources, Hempty, <- first_unsupported_None. cbn [existsb].
  destruct (first_unsupported (after __init__ w0) (lists (heap (after __init__ w0)) l)).
  - split; [split; discriminate | discriminate].
  - split; [split; reflexivity | discriminate].
Qed.

(** No replacement goes unnoticed: whenever a step of the handler or of its
    environment changes which list the handler holds, the signal fired once
    in that step. *)
Theorem replacement_is_always_notified w w' :
  step w w' ->
  _sources (self w') <> _sources (self w) ->
  emissions (sources_changed w') = S (emissions (sources_changed w)).
Proof.
  intros Hstep.
  destruct Hstep as [l w _| | | | | | |]; try (intros Hne; elim Hne; reflexivity).
  rewrite after_set_sources. destruct (outcome (set_sources l) w).
  - intros Hne; elim Hne; reflexivity.
  - reflexivity.
Qed.

Lemma step_emissions w w' :
  step w w' ->
  emissions (sources_changed w) <= emissions (sources_changed w') /\
  (emissions (sources_changed w') = emissions (sources_changed w) -> self w' = self w).
Proof.
  intros Hstep. destruct Hstep as [l w _| | | | | | |]; try (split; [apply le_n | reflexivity]).
  rewrite after_set_sources. destruct (outcome (set_sources l) w).
  - split; [apply le_n | reflexivity].
  - cbn. split; [lia | intros H; lia].
Qed.

(** As long as the signal has not fired since the construction of the
    handler, the handler holds the very list object that [__init__] made,
    whatever else its callers and its environment did, in-place changes of
    lists included. *)
Theorem no_notification_same_list_object w0 w :
  reachable_from w0 w ->
  emissions (sources_changed w) = 0 ->
  _sources (self w) = _sources (self (after __init__ w0)).
Proof.
  intros Hreach Hzero. unfold reachable_from in Hreach.
  assert (Hmono : emissions (sources_changed (after __init__ w0))
                    <= emissions (sources_changed w) /\
                  (emissions (sources_changed w)
                   = emissions (sources_changed (after __init__ w0)) ->
                   self w = self (after __init__ w0))).
  { clear Hzero. induction Hreach as [|a b c Hstep _ IH].
    - split; [apply le_n | reflexivity].
    - destruct (step_emissions _ _ Hstep) as [Hle Hsame]. destruct IH as [Hle' Hsame'].
      split; [lia|]. intros Heq.
      rewrite Hsame' by lia. apply Hsame. lia. }
  destruct Hmono as [_ Hsame]. rewrite Hsame; [reflexivity|].
  rewrite Hzero. reflexivity.
Qed.

(** The limit that the docstring of [set_sources] notes: a set-up that still
    works on the replaced list is not seen.  When a source of the old list,
    not in the new one, gets ready after the replacement, later calls of
    [set_sources] behave as if it had not. *)
Theorem stale_setup_is_not_detected w l l' source :
  outcome (set_sources l) w = inr tt ->
  In source (held w) ->
  ~ In source (lists (heap w) l) ->
  outcome (set_sources l') (after (set_ready source true) (after (set_sources l) w))
  = outcome (set_sources l') (after (set_sources l) w).
Proof.
  intros Hok _ Hout. apply set_ready_elsewhere.
  rewrite (succeeded_set_sources_world w l Hok). exact Hout.
Qed.

End Properties.

(** * The scenarios and concrete runs *)

(** Scenario A: an [A] source is accepted. *)
Example scenario_A :
  let w0 := after __init__ (Scenario.holding 0) in
  outcome (set_sources 1) w0 = inr tt /\
  outcome has_source (after (set_sources 1) w0) = inr true.
Proof. split; reflexivity. Qed.

(** Scenario B: a [B] source is refused and nothing is held. *)
Example scenario_B :
  let w0 := after __init__ (Scenario.holding 0) in
  outcome (set_sources 3) w0 = inl (IncompatibleSourceError Scenario.B) /\
  held (after (set_sources 3) w0) = [].
Proof. split; reflexivity. Qed.

(** Scenario C: a ready source is held, so even the empty list is refused. *)
Example scenario_C :
  outcome (set_sources 0) (Scenario.holding 2) = inl SourceSetupError /\
  held (after (set_sources 0) (Scenario.holding 2)) = [1].
Proof. split; reflexivity. Qed.

(** Scenario D: a fresh handler holds nothing, then two sources. *)
Example scenario_D :
  let w0 := after __init__ (Scenario.holding 0) in
  outcome has_source w0 = inr false /\
  outcome has_source (after (set_sources 4) w0) = inr true /\
  held (after (set_sources 4) w0) = [0; 4].
Proof. repeat split; reflexivity. Qed.

(** A list that is changed in place after the handler took it is not checked
    again: the handler then holds a source of type [B]. *)
Example in_place_change_is_not_checked :
  let w := after (r <- sources ;; list_append r 2)
                 (after (set_sources 1) (after __init__ (Scenario.holding 0))) in
  held w = [0; 2] /\ ~ Forall (supported w) (held w).
Proof.
  split; [reflexivity|]. intros H. inversion H as [|? ? _ H']; subst.
  inversion H' as [|? ? [Hb|[]] _]; subst. discriminate Hb.
Qed.

(** C1 as stated fails: the handler holds list 2, whose source 1 is ready,
    and is given list 3, whose source 2 has the unsupported type [B]; the
    call fails with [IncompatibleSourceError], not with [SourceSetupError]. *)
Lemma setup_guard_counterexample :
  Exists (fun source => source_ready (Scenario.holding 2) source = true)
         (held (Scenario.holding 2)) /\
  outcome (set_sources 3) (Scenario.holding 2) = inl (IncompatibleSourceError Scenario.B) /\
  outcome (set_sources 3) (Scenario.holding 2) <> inl SourceSetupError.
Proof.
  split; [left; reflexivity|]. split; [reflexivity | discriminate].
Qed.

(** C1, as amended, at a handler that holds the ready source 1 and is given
    list 1, whose source has type [A]. *)
Lemma set_sources_refused_while_ready_witness :
  Exists (fun source => source_ready (Scenario.holding 2) source = true)
         (held (Scenario.holding 2)) /\
  outcome (set_sources 1) (Scenario.holding 2) = inl SourceSetupError /\
  after (set_sources 1) (Scenario.holding 2) = Scenario.holding 2.
Proof.
  assert (H : Exists (fun source => source_ready (Scenario.holding 2) source = true)
                     (held (Scenario.holding 2))) by (left; reflexivity).
  destruct (set_sources_refused_while_ready (Scenario.holding 2) 1 H) as (_ & Hsame & Hsetup & _).
  split; [exact H|]. split; [|exact Hsame].
  apply Hsetup. repeat constructor.
Defined.

(** C2 as stated fails: the handler holds list 1, with source 0; a caller
    appends source 2 to what [sources] returned, and the handler holds
    sources 0 and 2. *)
Lemma sources_view_counterexample :
  held (Scenario.holding 1) = [0] /\
  held (after (r <- sources ;; list_append r 2) (Scenario.holding 1)) = [0; 2] /\
  held (after (r <- sources ;; list_append r 2) (Scenario.holding 1))
    <> held (Scenario.holding 1).
Proof.
  split; [reflexivity|]. split; [reflexivity | discriminate].
Qed.

(** C3 at a handler that holds source 0, not ready, and is given list 4. *)
Lemma set_sources_success_witness :
  Forall (fun source => source_ready (Scenario.holding 1) source = false)
         (held (Scenario.holding 1)) /\
  Forall (supported (Scenario.holding 1)) (lists (heap (Scenario.holding 1)) 4) /\
  outcome (set_sources 4) (Scenario.holding 1) = inr tt /\
  held (after (set_sources 4) (Scenario.holding 1)) = [0; 4] /\
  emissions (sources_changed (after (set_sources 4) (Scenario.holding 1))) = 1.
Proof.
  assert (H1 : Forall (fun source => source_ready (Scenario.holding 1) source = false)
                      (held (Scenario.holding 1))) by (repeat constructor).
  assert (H2 : Forall (supported (Scenario.holding 1)) (lists (heap (Scenario.holding 1)) 4))
    by (repeat constructor).
  destruct (set_sources_success (Scenario.holding 1) 4 H1 H2) as (Hok & _ & Hheld & Hfired & _).
  split; [exact H1|]. split; [exact H2|]. split; [exact Hok|]. split; [exact Hheld | exact Hfired].
Defined.

(** C4 at a handler that holds the ready source 1: list 3, whose source has
    type [B], is refused with [IncompatibleSourceError], and list 1, whose
    source has type [A], with [SourceSetupError]. *)
Lemma type_check_precedes_readiness_check_witness :
  Exists (fun source => ~ supported (Scenario.holding 2) source)
         (lists (heap (Scenario.holding 2)) 3) /\
  Exists (fun source => source_ready (Scenario.holding 2) source = true)
         (held (Scenario.holding 2)) /\
  (exists t, outcome (set_sources 3) (Scenario.holding 2) = inl (IncompatibleSourceError t)) /\
  outcome (set_sources 1) (Scenario.holding 2) = inl SourceSetupError.
Proof.
  assert (H1 : Exists (fun source => ~ supported (Scenario.holding 2) source)
                      (lists (heap (Scenario.holding 2)) 3)).
  { left. intros [H|[]]. discriminate H. }
  assert (H2 : Exists (fun source => source_ready (Scenario.holding 2) source = true)
                      (held (Scenario.holding 2))) by (left; reflexivity).
  destruct (type_check_precedes_readiness_check (Scenario.holding 2) 3 H1 H2)
    as ((t & Ht & _) & Hsetup).
  split; [exact H1|]. split; [exact H2|]. split; [exists t; exact Ht|].
  apply Hsetup. repeat constructor.
Defined.

(** C5 at a handler that holds source 0 and is given list 3. *)
Lemma incompatible_source_rejected_witness :
  Exists (fun source => ~ supported (Scenario.holding 1) source)
         (lists (heap (Scenario.holding 1)) 3) /\
  held (after (set_sources 3) (Scenario.holding 1)) = held (Scenario.holding 1).
Proof.
  assert (H1 : Exists (fun source => ~ supported (Scenario.holding 1) source)
                      (lists (heap (Scenario.holding 1)) 3)).
  { left. intros [H|[]]. discriminate H. }
  split; [exact H1|]. exact (proj2 (proj2 (incompatible_source_rejected (Scenario.holding 1) 3 H1))).
Defined.

(** C6 at a handler that holds the ready source 1 and is given the empty
    list. *)
Lemma failed_set_sources_changes_nothing_witness :
  outcome (set_sources 0) (Scenario.holding 2) = inl SourceSetupError /\
  after (set_sources 0) (Scenario.holding 2) = Scenario.holding 2.
Proof.
  assert (H : outcome (set_sources 0) (Scenario.holding 2) = inl SourceSetupError)
    by reflexivity.
  split; [exact H|]. exact (proj1 (failed_set_sources_changes_nothing (Scenario.holding 2) 0 SourceSetupError H)).
Defined.

(** C7 as stated fails: a handler is constructed and takes list 1, with
    source 0 of type [A]; a caller then appends source 2, of type [B], to the
    list that [sources] returns, and the handler holds a source whose type is
    not supported. *)
Lemma held_sources_invariant_counterexample :
  let w0 := Scenario.holding 0 in
  let w := after (r <- sources ;; list_append r 2)
                 (after (set_sources 1) (after __init__ w0)) in
  reachable_from w0 w /\
  held w = [0; 2] /\
  source_type w 2 = Scenario.B /\
  ~ Forall (supported w) (held w).
Proof.
  intros w0 w. split; [|split; [reflexivity|split; [reflexivity|]]].
  - unfold reachable_from.
    apply Relation_Operators.rt1n_trans with (y := after (set_sources 1) (after __init__ w0)).
    + apply step_set_sources. cbv. lia.
    + apply Relation_Operators.rt1n_trans with (y := w); [|apply rt1n_refl].
      exact (step_list_append 1 2 (after (set_sources 1) (after __init__ w0))).
  - intros H. inversion H as [|? ? _ H']; subst.
    inversion H' as [|? ? [Hb|[]] _]; subst. discriminate Hb.
Qed.

(** C7, as amended, for a handler that is constructed, takes list 1, and
    whose source 0 is then set up. *)
Lemma held_sources_always_supported_witness :
  let w0 := Scenario.holding 0 in
  let w := after (set_ready 0 true) (after (set_sources 1) (after __init__ w0)) in
  reachable_quietly w0 w /\ held w = [0] /\ Forall (supported w) (held w).
Proof.
  intros w0 w.
  assert (H : reachable_quietly w0 w).
  { unfold reachable_quietly.
    apply Relation_Operators.rt1n_trans with (y := after (set_sources 1) (after __init__ w0)).
    - split; [apply step_set_sources; cbv; lia | reflexivity].
    - apply Relation_Operators.rt1n_trans with (y := w); [|apply rt1n_refl].
      split; [apply step_set_ready | reflexivity]. }
  split; [exact H|]. split; [reflexivity|].
  exact (proj2 (held_sources_always_supported w0 w H)).
Defined.

(** C8 at a handler that holds source 0 and is given list 4: the subscriber
    has seen sources 0 and 4. *)
Lemma notification_after_commit_witness :
  outcome (set_sources 4) (Scenario.holding 1) = inr tt /\
  observers (after (set_sources 4) (Scenario.holding 1)) = [[0; 4]].
Proof.
  assert (H : outcome (set_sources 4) (Scenario.holding 1) = inr tt) by reflexivity.
  split; [exact H|].
  destruct (notification_after_commit (Scenario.holding 1) 4 H) as (_ & _ & _ & _ & _ & Hseen).
  exact Hseen.
Defined.

(** C9 at a handler that holds list 4 and is given the empty list 0. *)
Lemma set_sources_empty_witness :
  Forall (fun source => source_ready (Scenario.holding 4) source = false)
         (held (Scenario.holding 4)) /\
  lists (heap (Scenario.holding 4)) 0 = [] /\
  outcome (set_sources 0) (Scenario.holding 4) = inr tt /\
  outcome has_source (after (set_sources 0) (Scenario.holding 4)) = inr false.
Proof.
  assert (H1 : Forall (fun source => source_ready (Scenario.holding 4) source = false)
                      (held (Scenario.holding 4))) by (repeat constructor).
  assert (H2 : lists (heap (Scenario.holding 4)) 0 = []) by reflexivity.
  destruct (set_sources_empty (Scenario.holding 4) 0 H1 H2) as (Hok & Hnone & _).
  split; [exact H1|]. split; [exact H2|]. split; [exact Hok | exact Hnone].
Defined.

(** C10 at a handler that holds source 0 and is given list 5, whose first
    source is ready. *)
Lemma new_sources_may_be_ready_witness :
  Forall (fun source => source_ready (Scenario.holding 1) source = false)
         (held (Scenario.holding 1)) /\
  Forall (supported (Scenario.holding 1)) (lists (heap (Scenario.holding 1)) 5) /\
  Exists (fun source => source_ready (Scenario.holding 1) source = true)
         (lists (heap (Scenario.holding 1)) 5) /\
  outcome (set_sources 5) (Scenario.holding 1) = inr tt /\
  held (after (set_sources 5) (Scenario.holding 1)) = [1; 0].
Proof.
  assert (H1 : Forall (fun source => source_ready (Scenario.holding 1) source = false)
                      (held (Scenario.holding 1))) by (repeat constructor).
  assert (H2 : Forall (supported (Scenario.holding 1)) (lists (heap (Scenario.holding 1)) 5))
    by (repeat constructor).
  assert (H3 : Exists (fun source => source_ready (Scenario.holding 1) source = true)
                      (lists (heap (Scenario.holding 1)) 5)) by (left; reflexivity).
  destruct (new_sources_may_be_ready (Scenario.holding 1) 5 H1 H2 H3) as (Hok & Hheld & _).
  split; [exact H1|]. split; [exact H2|]. split; [exact H3|]. split; [exact Hok | exact Hheld].
Defined.

(** ** Further concrete runs *)

(** List 1 holds an [A], then a [C], then a [B]: the error names [C]. *)
Lemma first_offending_type_is_reported_witness :
  lists (heap (Mixed.holding 0)) 1 = [0] ++ 2 :: [1] /\
  Forall (supported (Mixed.holding 0)) [0] /\
  ~ supported (Mixed.holding 0) 2 /\
  outcome (set_sources 1) (Mixed.holding 0) = inl (IncompatibleSourceError Mixed.C).
Proof.
  assert (H1 : lists (heap (Mixed.holding 0)) 1 = [0] ++ 2 :: [1]) by reflexivity.
  assert (H2 : Forall (supported (Mixed.holding 0)) [0]) by (repeat constructor).
  assert (H3 : ~ supported (Mixed.holding 0) 2).
  { intros [H|[]]. discriminate H. }
  split; [exact H1|]. split; [exact H2|]. split; [exact H3|].
  exact (first_offending_type_is_reported (Mixed.holding 0) 1 [0] 2 [1] H1 H2 H3).
Defined.

(** The handler takes list 3, with source 0; the caller then appends the [B]
    source 1 to that list. *)
Lemma argument_list_is_aliased_witness :
  outcome (set_sources 3) (Mixed.holding 0) = inr tt /\
  held (after (list_append 3 1) (after (set_sources 3) (Mixed.holding 0))) = [0; 1] /\
  observers (after (list_append 3 1) (after (set_sources 3) (Mixed.holding 0))) = 1.
Proof.
  assert (H : outcome (set_sources 3) (Mixed.holding 0) = inr tt) by reflexivity.
  destruct (argument_list_is_aliased (Mixed.holding 0) 3 1 H) as (Hheld & _ & Hobs).
  split; [exact H|]. split; [exact Hheld | exact Hobs].
Defined.

(** The handler takes list 3, which has an element. *)
Lemma has_source_after_set_sources_witness :
  outcome (set_sources 3) (Mixed.holding 0) = inr tt /\
  exists b, outcome has_source (after (set_sources 3) (Mixed.holding 0)) = inr b /\
            (b = true <-> lists (heap (Mixed.holding 0)) 3 <> []).
Proof.
  assert (H : outcome (set_sources 3) (Mixed.holding 0) = inr tt) by reflexivity.
  split; [exact H|]. exact (has_source_after_set_sources (Mixed.holding 0) 3 H).
Defined.

(** The handler takes list 4, whose source 3 is ready; the empty list 0 is
    then refused. *)
Lemma ready_new_source_locks_handler_witness :
  outcome (set_sources 4) (Mixed.holding 0) = inr tt /\
  Exists (fun source => source_ready (Mixed.holding 0) source = true)
         (lists (heap (Mixed.holding 0)) 4) /\
  (exists e, outcome (set_sources 0) (after (set_sources 4) (Mixed.holding 0)) = inl e) /\
  held (after (set_sources 0) (after (set_sources 4) (Mixed.holding 0))) = [3].
Proof.
  assert (H1 : outcome (set_sources 4) (Mixed.holding 0) = inr tt) by reflexivity.
  assert (H2 : Exists (fun source => source_ready (Mixed.holding 0) source = true)
                      (lists (heap (Mixed.holding 0)) 4)) by (left; reflexivity).
  split; [exact H1|]. split; [exact H2|].
  exact (ready_new_source_locks_handler (Mixed.holding 0) 4 0 H1 H2).
Defined.

(** The handler holds list 2, whose source 3 is ready: list 3 is refused, and
    accepted once the held sources are torn down. *)
Lemma tear_down_unlocks_witness :
  Forall (supported (Mixed.holding 2)) (lists (heap (Mixed.holding 2)) 3) /\
  outcome (set_sources 3) (Mixed.holding 2) = inl SourceSetupError /\
  outcome (set_sources 3) (after tear_down_sources (Mixed.holding 2)) = inr tt.
Proof.
  assert (H : Forall (supported (Mixed.holding 2)) (lists (heap (Mixed.holding 2)) 3))
    by (repeat constructor).
  split; [exact H|]. split; [reflexivity|].
  exact (tear_down_unlocks (Mixed.holding 2) 3 H).
Defined.

(** The step in which the handler takes list 3 instead of list 0. *)
Lemma replacement_is_always_notified_witness :
  step (Mixed.holding 0) (after (set_sources 3) (Mixed.holding 0)) /\
  _sources (self (after (set_sources 3) (Mixed.holding 0))) <> _sources (self (Mixed.holding 0)) /\
  emissions (sources_changed (after (set_sources 3) (Mixed.holding 0))) = 1.
Proof.
  assert (H1 : step (Mixed.holding 0) (after (set_sources 3) (Mixed.holding 0))).
  { apply step_set_sources. cbv. lia. }
  assert (H2 : _sources (self (after (set_sources 3) (Mixed.holding 0)))
               <> _sources (self (Mixed.holding 0))) by discriminate.
  split; [exact H1|]. split; [exact H2|].
  exact (replacement_is_always_notified _ _ H1 H2).
Defined.

(** A handler is constructed, gets a subscriber and refuses list 1; a caller
    appends source 0 to the list that [sources] returns.  The signal has not
    fired, and the handler holds the list of its construction, list 6, now
    with source 0 in it. *)
Lemma no_notification_same_list_object_witness :
  let w0 := Mixed.holding 0 in
  let w1 := after (connect Mixed.count) (after __init__ w0) in
  let w := after (r <- sources ;; list_append r 0) (after (set_sources 1) w1) in
  reachable_from w0 w /\
  emissions (sources_changed w) = 0 /\
  _sources (self w) = 6 /\
  held w = [0].
Proof.
  intros w0 w1 w.
  assert (H : reachable_from w0 w).
  { unfold reachable_from.
    apply Relation_Operators.rt1n_trans with (y := w1); [apply step_connect|].
    apply Relation_Operators.rt1n_trans with (y := after (set_sources 1) w1).
    - apply step_set_sources. cbv. lia.
    - apply Relation_Operators.rt1n_trans with (y := w); [|apply rt1n_refl].
      exact (step_list_append 6 0 (after (set_sources 1) w1)). }
  assert (H0 : emissions (sources_changed w) = 0) by reflexivity.
  split; [exact H|]. split; [exact H0|]. split; [|reflexivity].
  rewrite (no_notification_same_list_object w0 w H H0). reflexivity.
Defined.

(** The handler holds list 3, with source 0, and takes list 5 instead;
    source 0 then gets ready, and the empty list 0 is accepted all the
    same. *)
Lemma stale_setup_is_not_detected_witness :
  outcome (set_sources 5) (Mixed.holding 3) = inr tt /\
  In 0 (held (Mixed.holding 3)) /\
  ~ In 0 (lists (heap (Mixed.holding 3)) 5) /\
  outcome (set_sources 0) (after (set_ready 0 true) (after (set_sources 5) (Mixed.holding 3)))
  = inr tt.
Proof.
  assert (H1 : outcome (set_sources 5) (Mixed.holding 3) = inr tt) by reflexivity.
  assert (H2 : In 0 (held (Mixed.holding 3))) by (left; reflexivity).
  assert (H3 : ~ In 0 (lists (heap (Mixed.holding 3)) 5)).
  { intros [H|[]]. discriminate H. }
  split; [exact H1|]. split; [exact H2|]. split; [exact H3|].
  rewrite (stale_setup_is_not_detected (Mixed.holding 3) 5 0 0 H1 H2 H3). reflexivity.
Defined.
